(** * Blank-back-page removal and AI file naming (app.py)

    A shallow embedding of the two core routines of [app.py]
    ([is_blank_page], [get_smart_name]) and of the per-upload body of the
    batch loop (naming fallback and the blank-filter loop), followed by the
    properties of the page filter, of the blank detector and of the naming
    step.

    Conventions.
    - Calls into PyMuPDF, Pillow, NumPy and the hosted model are the
      variables of a section: the development holds for every behaviour of
      these libraries, including calls that raise.
    - A Python call that may raise returns a [result]; exceptions propagate
      through [x ← e; k] exactly as they do through a Python block without
      [try].
    - NumPy's float64 is the kernel's binary64 ([PrimFloat]): the quotient
      and the comparison of [is_blank_page] are the IEEE ones.
    - A Python [str] is the list of its Unicode code points. *)

From Stdlib Require Import ZArith NArith Uint63 Floats String Ascii.
From stdpp Require Import base numbers list sorting.

Local Open Scope Z_scope.

(** ** Exceptions *)

Inductive exn : Type :=
  | IndexError
  | LibraryError (msg : string).

Inductive result (A : Type) : Type :=
  | Ok (a : A)
  | Raise (e : exn).
Arguments Ok {A} a.
Arguments Raise {A} e.

#[global] Instance result_ret : MRet result := @Ok.
#[global] Instance result_bind : MBind result := fun A B k m =>
  match m with
  | Ok a => k a
  | Raise e => Raise e
  end.

(** ** NumPy fragment: 2-D uint8 arrays, comparison, sum, size *)

Module np.

(** A 2-D array is the list of its rows. *)
Definition ndarray (A : Type) : Type := list (list A).

(** [arr < v], element by element. *)
Definition lt (arr : ndarray Z) (v : Z) : ndarray bool :=
  map (map (fun x => x <? v)) arr.

(** [np.sum] of a boolean array: [True] counts 1, [False] counts 0. *)
Definition sum (arr : ndarray bool) : Z :=
  fold_right (fun row acc =>
                fold_right (fun (b : bool) a => (if b then 1 else 0) + a) 0 row
                + acc) 0 arr.

(** [arr.size]: the number of elements. *)
Definition size {A} (arr : ndarray A) : Z :=
  fold_right (fun row acc => Z.of_nat (length row) + acc) 0 arr.

(** int64 (or Python int) to float64, as true division converts its
    operands.  Counts of pixels are far below 2^63, where the conversion
    of [Uint63.of_Z] is exact. *)
Definition to_float64 (n : Z) : float := PrimFloat.of_uint63 (Uint63.of_Z n).

(** [a / b] on integers: float64 true division. *)
Definition true_divide (a b : Z) : float :=
  PrimFloat.div (to_float64 a) (to_float64 b).

End np.

(** ** The blank detector *)

(** [fitz.Matrix(a, d)]: a scaling matrix. *)
Record Matrix : Type := fitz_Matrix { zoom_x : Z; zoom_y : Z }.

(** The default of the keyword argument [threshold=0.01]: the binary64
    number nearest to 1/100, which is what the literal [0.01] denotes. *)
Definition default_threshold : float := 0x1.47ae147ae147bp-7%float.

(** PyMuPDF pages and pixmaps, Pillow images, and the calls the program
    makes on them. *)
Class Imaging : Type := {
  Page : Type;
  Pixmap : Type;
  Image : Type;
  (** [page.get_pixmap(matrix=m)]. *)
  get_pixmap : Page -> Matrix -> result Pixmap;
  (** [pix.tobytes()]: the pixmap as PNG bytes. *)
  tobytes : Pixmap -> result (list Byte.byte);
  (** [Image.open(io.BytesIO(b))]. *)
  Image_open : list Byte.byte -> result Image;
  (** [img.convert('L')]: 8-bit luminance. *)
  convert_L : Image -> result Image;
  (** [np.array(img)] of a mode-L image: rows of samples in 0..255. *)
  np_array : Image -> np.ndarray Z
}.

(** Lines 34-39. *)
Definition is_blank_page `{Imaging} (page : Page) (threshold : float) : result bool :=
  pix ← get_pixmap page (fitz_Matrix 2 2);
  png ← tobytes pix;
  opened ← Image_open png;
  img ← convert_L opened;
  let img_array := np_array img in
  let non_white_pixels := np.sum (np.lt img_array 250) in
  Ok (PrimFloat.ltb (np.true_divide non_white_pixels (np.size img_array)) threshold).

(** ** Documents and the blank-filter loop *)

(** A source document: its pages, in order. *)
Abbreviation Document := (list Page).

(** The document under construction.  Every page is a copy made by
    [insert_pdf]; it is kept with the number of the source page it was
    copied from, which is the identity of a page of the output. *)
Abbreviation OutDocument := (list (nat * Page)).

(** [doc[i]]. *)
Definition getitem `{Imaging} (doc : Document) (i : nat) : result Page :=
  match doc !! i with
  | Some page => Ok page
  | None => Raise IndexError
  end.

(** [new_doc.insert_pdf(doc, from_page=a, to_page=b)]: the pages [a..b] of
    [doc] are copied to the end of [new_doc]. *)
Definition insert_pdf `{Imaging} (new_doc : OutDocument) (doc : Document)
    (from_page to_page : nat) : OutDocument :=
  new_doc ++ take (S to_page - from_page) (drop from_page (imap pair doc)).

(** [for i in range(start, start + count): s = body(s, i)]. *)
Fixpoint for_range {S : Type} (body : S -> nat -> result S)
    (start count : nat) (s : S) : result S :=
  match count with
  | O => Ok s
  | Datatypes.S n => s' ← body s start; for_range body (Datatypes.S start) n s'
  end.

(** The body of the loop, lines 87-91. *)
Definition filter_step `{Imaging} (doc : Document) (new_doc : OutDocument)
    (i : nat) : result OutDocument :=
  if (i mod 2 =? 0)%nat then
    Ok (insert_pdf new_doc doc i i)
  else
    page ← getitem doc i;
    blank ← is_blank_page page default_threshold;
    if negb blank then Ok (insert_pdf new_doc doc i i) else Ok new_doc.

(** Lines 85-91: [new_doc = fitz.open()] and the loop over
    [range(len(doc))]. *)
Definition filter_blanks `{Imaging} (doc : Document) : result OutDocument :=
  for_range (filter_step doc) 0 (length doc) [].

(** The page sequence of an output document, and the source page numbers
    of its pages. *)
Definition pages `{Imaging} (out : OutDocument) : list Page := out.*2.
Definition source_indices `{Imaging} (out : OutDocument) : list nat := out.*1.

(** Page [i] of the source is present in the output. *)
Definition present `{Imaging} (i : nat) (out : OutDocument) : Prop :=
  i ∈ source_indices out.

(** The detector as the specification describes it: the luminance grid of
    the page rendered at a linear magnification, the samples below 250 are
    the non-white ones, and the page is blank when their share of all
    samples is below the threshold. *)
Definition render_luminance `{Imaging} (page : Page) (magnification : Z)
    : result (np.ndarray Z) :=
  pix ← get_pixmap page (fitz_Matrix magnification magnification);
  png ← tobytes pix;
  opened ← Image_open png;
  img ← convert_L opened;
  Ok (np_array img).

Definition samples (grid : np.ndarray Z) : list Z := concat grid.

Definition non_white_samples (grid : np.ndarray Z) : list Z :=
  List.filter (fun luminance => luminance <? 250) (samples grid).

Definition non_white_ratio (grid : np.ndarray Z) : float :=
  PrimFloat.div (np.to_float64 (Z.of_nat (length (non_white_samples grid))))
                (np.to_float64 (Z.of_nat (length (samples grid)))).

Definition is_blank_reference `{Imaging} (page : Page) (threshold : float)
    : result bool :=
  grid ← render_luminance page 2;
  Ok (PrimFloat.ltb (non_white_ratio grid) threshold).

(** ** Python strings *)

(** A [str] is the sequence of its code points. *)
Definition char : Type := N.
Definition str : Type := list char.

(** An ASCII literal as a [str]. *)
Definition py_str (s : string) : str := map N_of_ascii (list_ascii_of_string s).

(** [str.isspace] on one character: the code points Python counts as
    white space. *)
Definition isspace (c : char) : bool :=
  (((9 <=? c) && (c <=? 13)) || ((28 <=? c) && (c <=? 32))
   || (c =? 133) || (c =? 160) || (c =? 5760)
   || ((8192 <=? c) && (c <=? 8202)) || (c =? 8232) || (c =? 8233)
   || (c =? 8239) || (c =? 8287) || (c =? 12288))%N.

Fixpoint lstrip (s : str) : str :=
  match s with
  | [] => []
  | c :: s' => if isspace c then lstrip s' else s
  end.

(** [s.strip()]. *)
Definition strip (s : str) : str := rev (lstrip (rev (lstrip s))).

(** [s.split(sep)] for a separator of one character. *)
Fixpoint split (sep : char) (s : str) : list str :=
  match s with
  | [] => [[]]
  | c :: s' =>
      if (c =? sep)%N then [] :: split sep s'
      else match split sep s' with
           | [] => [[c]]
           | word :: words => (c :: word) :: words
           end
  end.

Fixpoint startswith (prefix s : str) : bool :=
  match prefix, s with
  | [], _ => true
  | _ :: _, [] => false
  | a :: prefix', b :: s' => (a =? b)%N && startswith prefix' s'
  end.

(** [s.replace(old, new)] for a non-empty [old]: every occurrence of
    [old], found from left to right without overlap, becomes [new].  The
    fuel bounds the number of positions still to visit. *)
Fixpoint replace_from (fuel : nat) (old new s : str) : str :=
  match fuel with
  | O => s
  | Datatypes.S fuel' =>
      match s with
      | [] => []
      | c :: s' =>
          if startswith old s
          then new ++ replace_from fuel' old new (drop (length old) s)
          else c :: replace_from fuel' old new s'
      end
  end.

Definition replace (old new s : str) : str := replace_from (length s) old new s.

(** [s.endswith(suffix)]. *)
Definition endswith (suffix s : str) : bool := startswith (rev suffix) (rev s).

(** ** The naming step *)

(** The nine characters of the character class of line 51: backslash,
    slash, colon, asterisk, question mark, double quote, less-than,
    greater-than and vertical bar. *)
Definition illegal_chars : list char := [92; 47; 58; 42; 63; 34; 60; 62; 124]%N.

Definition is_illegal (c : char) : bool := existsb (N.eqb c) illegal_chars.

(** [re.sub(class, '', s)]: every character of the class is removed. *)
Definition re_sub_illegal (s : str) : str :=
  List.filter (fun c => negb (is_illegal c)) s.

(** The hosted vision model. *)
Class Vision `{Imaging} : Type := {
  Model : Type;
  Response : Type;
  (** [model.generate_content([prompt, img])], with the prompt of lines
      42-48. *)
  generate_content : Model -> Image -> result Response;
  (** [response.text]. *)
  response_text : Response -> result str
}.

(** Lines 41-54.  [None] is the value returned by the [except] branch,
    which catches whatever the call or the reading of its text raises; the
    message it shows with [st.error] is not part of the returned value. *)
Definition get_smart_name `{Vision} (model : Model) (img : Image) : option str :=
  let attempt :=
    response ← generate_content model img;
    text ← response_text response;
    Ok (re_sub_illegal (hd [] (split 10%N (strip text)))) in
  match attempt with
  | Ok name => Some name
  | Raise _ => None
  end.

(** [a or b] where [a] is a [str] or [None]: [None] and the empty string
    are falsy. *)
Definition py_or (a : option str) (b : str) : str :=
  match a with
  | Some (c :: s) => c :: s
  | Some [] | None => b
  end.

Definition dot_pdf : str := py_str ".pdf".

(** Line 82. *)
Definition new_base_name `{Vision} (model : Model) (img : Image)
    (uploaded_name : str) : str :=
  py_or (get_smart_name model img) (replace dot_pdf [] uploaded_name).

(** A file name with its [.pdf] extension stripped: the name without its
    last four characters when it ends in [.pdf]. *)
Definition strip_pdf_extension (name : str) : str :=
  if endswith dot_pdf name then take (length name - length dot_pdf) name
  else name.

(** Lines 80-96 for one upload, from the opened document to the entry
    appended to [processed_files]; the serialisation of [new_doc] is left
    out. *)
Definition process_upload `{Vision} (model : Model) (uploaded_name : str)
    (doc : Document) : result (str * OutDocument) :=
  first_page ← getitem doc 0;
  pix ← get_pixmap first_page (fitz_Matrix 3 3);
  png ← tobytes pix;
  img ← Image_open png;
  let base := new_base_name model img uploaded_name in
  new_doc ← filter_blanks doc;
  Ok (base ++ dot_pdf, new_doc).

(** ** The retention rule, as a predicate on a numbered page *)

(** The detector's verdict on a page that could be rendered. *)
Definition classified_non_blank `{Imaging} (page : Page) : bool :=
  match is_blank_page page default_threshold with
  | Ok false => true
  | _ => false
  end.

(** A front page, or a back page that the detector finds non-blank. *)
Definition retained `{Imaging} (numbered : nat * Page) : bool :=
  (numbered.1 mod 2 =? 0)%nat || classified_non_blank numbered.2.

(** The detector returns a verdict on every back page of the document. *)
Definition backs_classified `{Imaging} (doc : Document) : Prop :=
  forall i page, (i mod 2 = 1)%nat -> doc !! i = Some page ->
    exists blank, is_blank_page page default_threshold = Ok blank.

(** ** Concrete libraries for the examples

    A page renders to one row of luminance samples, or cannot be rendered;
    the model answers with a fixed text, or its call raises. *)
Module Fixture.

(** A scanned side: the sheet it belongs to, and its luminance samples
    when it can be rendered. *)
Record scan : Type := Scan { sheet : nat; content : option (list Byte.byte) }.

Definition luminance_row (samples : list Byte.byte) : np.ndarray Z :=
  [map (fun b => Z.of_N (Byte.to_N b)) samples].

Definition imaging : Imaging := {|
  Page := scan;
  Pixmap := list Byte.byte;
  Image := list Byte.byte;
  get_pixmap := fun page _ =>
    match content page with
    | Some row => Ok row
    | None => Raise (LibraryError "cannot render page")
    end;
  tobytes := Ok;
  Image_open := Ok;
  convert_L := Ok;
  np_array := luminance_row
|}.

Definition vision : @Vision imaging := {|
  Model := option str;
  Response := str;
  generate_content := fun model _ =>
    match model with
    | Some answer => Ok answer
    | None => Raise (LibraryError "quota exceeded")
    end;
  response_text := Ok
|}.

(** A side of 100 samples of which [ink] are black and the rest white. *)
Definition inked (sheet : nat) (ink : nat) : @Page imaging :=
  Scan sheet (Some (repeat Byte.x00 ink ++ repeat Byte.xff (100 - ink))).

Definition white (sheet : nat) : @Page imaging := inked sheet 0.
Definition unreadable (sheet : nat) : @Page imaging := Scan sheet None.

(** Fronts with content, a white back and a back with 2% of ink. *)
Definition four_pages : list (@Page imaging) :=
  [inked 0 30; white 0; inked 1 40; inked 1 2].

(** What the filter makes of [four_pages]. *)
Definition four_pages_filtered : list (nat * @Page imaging) :=
  [(0%nat, inked 0 30); (2%nat, inked 1 40); (3%nat, inked 1 2)].

Definition one_page : list (@Page imaging) := [white 0].

(** A side with 1% of ink, and its luminance grid. *)
Definition one_percent : @Page imaging := inked 0 1.
Definition one_percent_grid : np.ndarray Z :=
  luminance_row (repeat Byte.x00 1 ++ repeat Byte.xff 99).

(** An upload whose name holds [.pdf] twice. *)
Definition doubled_extension : str := py_str "scan.pdf.pdf".

End Fixture.

(** ** The batch: uploads, the body of the loop and the archive *)

(** A back page on which the detector answers that it is blank: the pages
    the filter leaves out. *)
Definition dropped_back `{Imaging} (numbered : nat * Page) : bool :=
  (numbered.1 mod 2 =? 1)%nat
  && match is_blank_page numbered.2 default_threshold with
     | Ok true => true
     | _ => false
     end.

(** A page of the output with its source page number moved by [offset]. *)
Definition shifted `{Imaging} (offset : nat) (numbered : nat * Page) : nat * Page :=
  ((offset + numbered.1)%nat, numbered.2).

(** [old] occurs in [s] at position [k]. *)
Definition occurs_at (old s : str) (k : nat) : bool := startswith old (drop k s).

(** An upload: [uploaded_file.name] and the bytes that
    [uploaded_file.read()] returns. *)
Record UploadedFile : Type := {
  upload_name : str;
  upload_bytes : list Byte.byte
}.

(** Opening a PDF from bytes and serialising the new one, with PyMuPDF. *)
Class Pdf `{Imaging} : Type := {
  (** [fitz.open(stream=file_bytes, filetype=...)]. *)
  fitz_open : list Byte.byte -> result Document;
  (** [new_doc.save(out_buffer)] followed by [out_buffer.getvalue()]. *)
  save : OutDocument -> result (list Byte.byte)
}.

(** Lines 76-96: the body of the loop for one upload, up to the entry
    appended to [processed_files].  The status text, the progress bar and
    the pause of lines 73, 102 and 104 change nothing of the entry and are
    left out, as is the closing of the two documents. *)
Definition process_file {I : Imaging} {V : @Vision I} {P : @Pdf I}
    (model : Model) (uploaded_file : UploadedFile)
    : result (str * list Byte.byte) :=
  let file_bytes := upload_bytes uploaded_file in
  doc ← fitz_open file_bytes;
  named ← process_upload model (upload_name uploaded_file) doc;
  data ← save named.2;
  Ok (named.1, data).

(** Lines 68-104: the loop over the uploads, [processed_files] growing by
    one entry for each. *)
Fixpoint batch_loop {I : Imaging} {V : @Vision I} {P : @Pdf I}
    (model : Model) (uploaded_files : list UploadedFile)
    (processed_files : list (str * list Byte.byte))
    : result (list (str * list Byte.byte)) :=
  match uploaded_files with
  | [] => Ok processed_files
  | uploaded_file :: rest =>
      entry ← process_file model uploaded_file;
      batch_loop model rest (processed_files ++ [entry])
  end.

(** The archive, with [zipfile]. *)
Class Zip : Type := {
  ZipFile : Type;
  (** [zipfile.ZipFile(zip_buffer, ...)] opened for writing: an archive
      without entries. *)
  ZipFile_new : ZipFile;
  (** [zip_file.writestr(file_name, data)].  The call may raise: it cuts
      the name at its first NUL character and raises on a name of which
      nothing is left, or that does not fit the format. *)
  writestr : ZipFile -> str -> list Byte.byte -> result ZipFile
}.

(** Lines 109-112: the entries are written in the order of
    [processed_files]; an exception leaves the [with] block and ends the
    run. *)
Fixpoint zip_entries `{Zip} (zip_file : ZipFile)
    (processed_files : list (str * list Byte.byte)) : result ZipFile :=
  match processed_files with
  | [] => Ok zip_file
  | (file_name, data) :: rest =>
      written ← writestr zip_file file_name data;
      zip_entries written rest
  end.

Definition zip_archive `{Zip} (processed_files : list (str * list Byte.byte))
    : result ZipFile :=
  zip_entries ZipFile_new processed_files.

(** What a run of the script ends with. *)
Inductive Screen `{Zip} : Type :=
  | Idle
  | KeyWarning
  | StartButton
  | DownloadButton (archive : ZipFile).

(** Lines 60-119 for one run of the script: [api_key] is the text of the
    side bar, [model] the model built at lines 64-65, [button] whether the
    start button was pressed. *)
Definition run_app {I : Imaging} {V : @Vision I} {P : @Pdf I} {Z : Zip}
    (api_key : str) (model : Model) (button : bool)
    (uploaded_files : list UploadedFile) : result Screen :=
  match uploaded_files with
  | [] => Ok Idle
  | _ :: _ =>
      match api_key with
      | [] => Ok KeyWarning
      | _ :: _ =>
          if button then
            processed_files ← batch_loop model uploaded_files [];
            archive ← zip_archive processed_files;
            Ok (DownloadButton archive)
          else Ok StartButton
      end
  end.

(** ** Concrete uploads for the examples

    A stream is a document when it starts with the byte of the percent
    sign; each byte after it is a page of one luminance sample. *)
Module BatchFixture.

Definition page_of_byte (b : Byte.byte) : @Page Fixture.imaging :=
  Fixture.Scan 0 (Some [b]).

Definition pdf : @Pdf Fixture.imaging := {|
  fitz_open := fun stream =>
    match stream with
    | b :: body =>
        if Byte.eqb b Byte.x25 then Ok (map page_of_byte body)
        else Raise (LibraryError "cannot open broken document")
    | [] => Raise (LibraryError "cannot open empty stream")
    end;
  save := fun new_doc =>
    Ok (Byte.x25
        :: flat_map (fun numbered => default [] (Fixture.content numbered.2))
                    new_doc)
|}.

(** An archive is the list of its entries.  As [zipfile] does, the name
    of an entry is cut at its first NUL character, and a name of which
    nothing is left raises [IndexError]. *)
Fixpoint until_nul (file_name : str) : str :=
  match file_name with
  | [] => []
  | c :: rest => if (c =? 0)%N then [] else c :: until_nul rest
  end.

Definition zip : Zip := {|
  ZipFile := list (str * list Byte.byte);
  ZipFile_new := [];
  writestr := fun zip_file file_name data =>
    match until_nul file_name with
    | [] => Raise IndexError
    | c :: cut => Ok (zip_file ++ [(c :: cut, data)])
    end
|}.

(** Dark front, white back, dark front, dark back. *)
Definition duplex : UploadedFile := {|
  upload_name := py_str "duplex.pdf";
  upload_bytes := [Byte.x25; Byte.x00; Byte.xff; Byte.x00; Byte.x00]
|}.

Definition single : UploadedFile := {|
  upload_name := py_str "SINGLE.PDF";
  upload_bytes := [Byte.x25; Byte.xff]
|}.

(** A document without pages, and a stream that is no document. *)
Definition no_pages : UploadedFile := {|
  upload_name := py_str "none.pdf";
  upload_bytes := [Byte.x25]
|}.

Definition broken : UploadedFile := {|
  upload_name := py_str "broken.pdf";
  upload_bytes := [Byte.x00]
|}.

(** A page without samples, and two pages with the same samples in
    another order and in another shade. *)
Definition no_samples : @Page Fixture.imaging := Fixture.Scan 0 (Some []).

Definition ink_last : @Page Fixture.imaging :=
  Fixture.Scan 0 (Some (repeat Byte.xff 98 ++ repeat Byte.x00 2)).

Definition grey_ink : @Page Fixture.imaging :=
  Fixture.Scan 0 (Some (repeat Byte.x80 2 ++ repeat Byte.xfa 98)).

(** Renderings of [Fixture.inked 0 2], [ink_last] and [grey_ink]. *)
Definition ink_first_grid : np.ndarray Z :=
  Fixture.luminance_row (repeat Byte.x00 2 ++ repeat Byte.xff 98).
Definition ink_last_grid : np.ndarray Z :=
  Fixture.luminance_row (repeat Byte.xff 98 ++ repeat Byte.x00 2).
Definition grey_ink_grid : np.ndarray Z :=
  Fixture.luminance_row (repeat Byte.x80 2 ++ repeat Byte.xfa 98).
Definition white_grid : np.ndarray Z :=
  Fixture.luminance_row (repeat Byte.xff 100).

(** Two sheets of which no back is blank, and the two halves of
    [Fixture.four_pages] with what the filter makes of them. *)
Definition written_backs : list (@Page Fixture.imaging) :=
  [Fixture.inked 0 30; Fixture.inked 0 2].
Definition first_sheet : list (@Page Fixture.imaging) :=
  [Fixture.inked 0 30; Fixture.white 0].
Definition second_sheet : list (@Page Fixture.imaging) :=
  [Fixture.inked 1 40; Fixture.inked 1 2].
Definition first_sheet_filtered : list (nat * @Page Fixture.imaging) :=
  [(0%nat, Fixture.inked 0 30)].
Definition second_sheet_filtered : list (nat * @Page Fixture.imaging) :=
  [(0%nat, Fixture.inked 1 40); (1%nat, Fixture.inked 1 2)].

(** Answers of the model: a line that begins with a NUL character, two
    lines, and one clean line. *)
Definition nul_first : str := [0%N] ++ py_str "abc".
Definition two_lines : str := py_str "2025_A" ++ [10%N] ++ py_str "note".
Definition clean_line : str := py_str "20250102_Taipei_check".

End BatchFixture.

(** * Properties *)

#[local] Arguments Nat.modulo : simpl never.
#[local] Arguments Nat.div : simpl never.

(** ** The monad of results *)

Lemma bind_Ok {A B} (m : result A) (k : A -> result B) (b : B) :
  (x ← m; k x) = Ok b <-> exists a, m = Ok a /\ k a = Ok b.
Proof.
  destruct m as [a|e]; simpl.
  - split; [intros Hk; exists a; done | intros (a' & [= <-] & Hk); done].
  - split; [done | intros (a' & [=] & _)].
Qed.

(** ** Counting with NumPy *)

Lemma np_sum_row (row : list Z) (v : Z) :
  fold_right (fun (b : bool) a => (if b then 1 else 0) + a) 0
             (map (fun x => x <? v) row)
  = Z.of_nat (length (List.filter (fun x => x <? v) row)).
Proof.
  induction row as [|x row IH]; simpl; [done|].
  rewrite IH. destruct (x <? v); simpl length; lia.
Qed.

Lemma np_sum_lt (arr : np.ndarray Z) (v : Z) :
  np.sum (np.lt arr v)
  = Z.of_nat (length (List.filter (fun x => x <? v) (concat arr))).
Proof.
  induction arr as [|row arr IH]; simpl; [done|].
  unfold np.sum, np.lt in IH |- *. simpl.
  rewrite IH, np_sum_row, List.filter_app, length_app. lia.
Qed.

Lemma np_size_concat {A} (arr : np.ndarray A) :
  np.size arr = Z.of_nat (length (concat arr)).
Proof.
  induction arr as [|row arr IH]; simpl; [done|].
  unfold np.size in IH |- *. simpl. rewrite IH, length_app. lia.
Qed.

Lemma np_sum_lt_bounds (arr : np.ndarray Z) (v : Z) :
  0 <= np.sum (np.lt arr v) <= np.size arr.
Proof.
  rewrite np_sum_lt, np_size_concat.
  pose proof (List.filter_length_le (fun x => x <? v) (concat arr)). lia.
Qed.

(** ** IEEE comparison *)

Lemma float_eqb_not_ltb (x y : float) :
  PrimFloat.eqb x y = true -> PrimFloat.ltb x y = false.
Proof.
  rewrite FloatAxioms.eqb_spec, FloatAxioms.ltb_spec. unfold SFeqb, SFltb.
  destruct (SFcompare (Prim2SF x) (Prim2SF y)) as [[]|]; done.
Qed.

Lemma float_ltb_irrefl (x : float) : PrimFloat.ltb x x = false.
Proof.
  rewrite FloatAxioms.ltb_spec. unfold SFltb, SFcompare.
  destruct (Prim2SF x) as [[]|[]| |[] m e]; try done;
    rewrite ?Z.compare_refl, ?Pos.compare_refl; done.
Qed.

(** ** The blank detector *)

Section Detector.

Context `{Imaging}.

(** The detector looks at the page through its luminance grid at
    magnification 2 only. *)
Lemma is_blank_page_luminance (page : Page) (threshold : float) :
  is_blank_page page threshold
  = (grid ← render_luminance page 2;
     Ok (PrimFloat.ltb
           (np.true_divide (np.sum (np.lt grid 250)) (np.size grid))
           threshold)).
Proof.
  unfold is_blank_page, render_luminance.
  destruct (get_pixmap page (fitz_Matrix 2 2)) as [pix|]; simpl; [|done].
  destruct (tobytes pix) as [png|]; simpl; [|done].
  destruct (Image_open png) as [opened|]; simpl; [|done].
  destruct (convert_L opened) as [img|]; simpl; done.
Qed.

Lemma true_divide_non_white_ratio (grid : np.ndarray Z) :
  np.true_divide (np.sum (np.lt grid 250)) (np.size grid)
  = non_white_ratio grid.
Proof.
  unfold np.true_divide, non_white_ratio, non_white_samples, samples.
  by rewrite np_sum_lt, np_size_concat.
Qed.

(** C4. On every page and for every threshold, [is_blank_page] computes
    what the reference detector computes: the page rendered at twice the
    linear size, its luminance grid, the samples below 250 counted as
    non-white, and the verdict blank exactly when the quotient of that
    count by the number of samples is strictly below the threshold
    (a rendering that raises makes both raise the same exception). *)
Theorem is_blank_page_refines_reference (page : Page) (threshold : float) :
  is_blank_page page threshold = is_blank_reference page threshold.
Proof.
  rewrite is_blank_page_luminance. unfold is_blank_reference.
  destruct (render_luminance page 2) as [grid|e]; simpl; [|done].
  by rewrite true_divide_non_white_ratio.
Qed.

(** C5. A page whose quotient of non-white samples by all samples is
    equal to the threshold is classified non-blank: the comparison is
    the strict one. *)
Theorem threshold_boundary_not_blank (page : Page) (threshold : float)
    (grid : np.ndarray Z) :
  render_luminance page 2 = Ok grid ->
  PrimFloat.eqb
    (np.true_divide (np.sum (np.lt grid 250)) (np.size grid)) threshold
  = true ->
  is_blank_page page threshold = Ok false.
Proof.
  intros Hgrid Heq. rewrite is_blank_page_luminance, Hgrid. simpl.
  by rewrite (float_eqb_not_ltb _ _ Heq).
Qed.

End Detector.

(** ** Subsequences of sorted lists *)

Lemma sublist_Forall {A} (P : A -> Prop) (l1 l2 : list A) :
  l1 `sublist_of` l2 -> Forall P l2 -> Forall P l1.
Proof.
  induction 1 as [|x l1 l2 _ IH|x l1 l2 _ IH]; intros Hall; [done|..].
  - apply Forall_cons in Hall as [Hx Hall]. constructor; auto.
  - apply Forall_cons in Hall as [_ Hall]. auto.
Qed.

Lemma sublist_StronglySorted {A} (R : relation A) (l1 l2 : list A) :
  l1 `sublist_of` l2 -> StronglySorted R l2 -> StronglySorted R l1.
Proof.
  induction 1 as [|x l1 l2 Hsub IH|x l1 l2 _ IH]; intros Hsorted; [done|..].
  - apply StronglySorted_cons in Hsorted as [Hx Hsorted].
    apply StronglySorted_cons. split; [by eapply sublist_Forall|auto].
  - apply StronglySorted_cons in Hsorted as [_ Hsorted]. auto.
Qed.

Lemma seq_StronglySorted (count : nat) : forall start,
  StronglySorted lt (seq start count).
Proof.
  induction count as [|count IH]; intros start; simpl; constructor; [done|].
  apply Forall_forall. intros j Hj%elem_of_seq. lia.
Qed.

(** ** The blank-filter loop *)

Section Filter.

Context `{Imaging}.

Implicit Types (doc : Document) (new_doc out : OutDocument) (page : Page).

(** The source pages with their numbers, and those the rule retains. *)
Local Abbreviation numbered doc := (imap pair doc).
Local Abbreviation kept doc := (filter (fun ip => retained ip = true) (numbered doc)).

Lemma numbered_lookup doc i page :
  doc !! i = Some page -> numbered doc !! i = Some (i, page).
Proof. intros Hi. by rewrite list_lookup_imap, Hi. Qed.

Lemma numbered_elem_of doc i page :
  (i, page) ∈ numbered doc <-> doc !! i = Some page.
Proof.
  rewrite elem_of_lookup_imap. split.
  - by intros (j & q & [= -> ->] & Hj).
  - intros Hi. by exists i, page.
Qed.

Lemma numbered_pages doc : (numbered doc).*2 = doc.
Proof.
  apply list_eq. intros i. rewrite list_lookup_fmap, list_lookup_imap.
  by destruct (doc !! i).
Qed.

Lemma numbered_indices doc : (numbered doc).*1 = seq 0 (length doc).
Proof.
  apply list_eq. intros i. rewrite list_lookup_fmap, list_lookup_imap.
  destruct (doc !! i) as [page|] eqn:Hi; simpl.
  - symmetry. apply lookup_seq. split; [done|]. by eapply lookup_lt_Some.
  - symmetry. apply lookup_seq_ge. by apply lookup_ge_None.
Qed.

Lemma insert_pdf_one doc new_doc i page :
  doc !! i = Some page -> insert_pdf new_doc doc i i = new_doc ++ [(i, page)].
Proof.
  intros Hi. unfold insert_pdf.
  replace (S i - i)%nat with 1%nat by lia.
  by rewrite (drop_S _ _ _ (numbered_lookup _ _ _ Hi)).
Qed.

(** One iteration on a page of the document. *)
Lemma filter_step_lookup doc new_doc i page :
  doc !! i = Some page ->
  filter_step doc new_doc i
  = if (i mod 2 =? 0)%nat then Ok (new_doc ++ [(i, page)])
    else blank ← is_blank_page page default_threshold;
         Ok (if negb blank then new_doc ++ [(i, page)] else new_doc).
Proof.
  intros Hi. unfold filter_step, getitem.
  rewrite (insert_pdf_one _ _ _ _ Hi), Hi. simpl.
  destruct (i mod 2 =? 0)%nat; [done|].
  destruct (is_blank_page page default_threshold) as [[]|]; done.
Qed.

Lemma filter_step_retained doc new_doc i page out :
  doc !! i = Some page ->
  filter_step doc new_doc i = Ok out ->
  out = new_doc ++ filter (fun ip => retained ip = true) [(i, page)]
  /\ ((i mod 2 = 1)%nat ->
      exists blank, is_blank_page page default_threshold = Ok blank).
Proof.
  intros Hi. rewrite (filter_step_lookup _ _ _ _ Hi).
  rewrite filter_cons, filter_nil. unfold retained, classified_non_blank. simpl.
  destruct (i mod 2 =? 0)%nat eqn:Hpar; simpl.
  - intros [= <-]. split; [done|]. apply Nat.eqb_eq in Hpar. lia.
  - destruct (is_blank_page page default_threshold) as [[]|e]; simpl;
      intros [= <-]; (split; [by rewrite ?app_nil_r | by eexists]).
Qed.

Lemma filter_step_classified doc new_doc i page :
  doc !! i = Some page ->
  ((i mod 2 = 1)%nat ->
   exists blank, is_blank_page page default_threshold = Ok blank) ->
  filter_step doc new_doc i
  = Ok (new_doc ++ filter (fun ip => retained ip = true) [(i, page)]).
Proof.
  intros Hi Hcl. rewrite (filter_step_lookup _ _ _ _ Hi).
  rewrite filter_cons, filter_nil. unfold retained, classified_non_blank. simpl.
  destruct (i mod 2 =? 0)%nat eqn:Hpar; simpl; [done|].
  apply Nat.eqb_neq in Hpar.
  destruct Hcl as [blank ->]; [pose proof (Nat.mod_upper_bound i 2); lia|].
  destruct blank; simpl; by rewrite ?app_nil_r.
Qed.

(** The loop from page [start] on: when it returns, it has appended the
    retained pages among those left, and every back page among those left
    got a verdict. *)
Lemma for_range_filter_sound doc count : forall start new_doc out,
  (start + count = length doc)%nat ->
  for_range (filter_step doc) start count new_doc = Ok out ->
  out = new_doc
        ++ filter (fun ip => retained ip = true) (drop start (numbered doc))
  /\ (forall i page, (start <= i)%nat -> (i mod 2 = 1)%nat ->
        doc !! i = Some page ->
        exists blank, is_blank_page page default_threshold = Ok blank).
Proof.
  induction count as [|count IH]; intros start new_doc out Hlen; simpl.
  - intros [= <-]. rewrite drop_ge by (rewrite length_imap; lia).
    split; [by rewrite filter_nil, app_nil_r|].
    intros i page Hle _ Hi. apply lookup_lt_Some in Hi. lia.
  - intros (mid & Hstep & Hrest)%bind_Ok.
    destruct (lookup_lt_is_Some_2 doc start) as [first Hfirst]; [lia|].
    destruct (filter_step_retained _ _ _ _ _ Hfirst Hstep) as [-> Hverdict].
    destruct (IH (S start) _ _ ltac:(lia) Hrest) as [-> Hlater].
    split.
    + rewrite (drop_S _ _ _ (numbered_lookup _ _ _ Hfirst)).
      rewrite (filter_cons _ (start, first)), <- app_assoc.
      f_equal. rewrite filter_cons, filter_nil.
      by destruct (decide (retained (start, first) = true)).
    + intros i page Hle Hodd Hi.
      destruct (decide (i = start)) as [->|Hne].
      * rewrite Hfirst in Hi. injection Hi as <-. by apply Hverdict.
      * apply (Hlater i page); [lia|done..].
Qed.

Lemma for_range_filter_complete doc count : forall start new_doc,
  (start + count = length doc)%nat ->
  backs_classified doc ->
  for_range (filter_step doc) start count new_doc
  = Ok (new_doc
        ++ filter (fun ip => retained ip = true) (drop start (numbered doc))).
Proof.
  induction count as [|count IH]; intros start new_doc Hlen Hcl; simpl.
  - rewrite drop_ge by (rewrite length_imap; lia).
    by rewrite filter_nil, app_nil_r.
  - destruct (lookup_lt_is_Some_2 doc start) as [first Hfirst]; [lia|].
    rewrite (filter_step_classified _ _ _ _ Hfirst); [|by eauto]. simpl.
    rewrite IH by (done || lia).
    rewrite (drop_S _ _ _ (numbered_lookup _ _ _ Hfirst)).
    rewrite (filter_cons _ (start, first)), <- app_assoc.
    do 2 f_equal. rewrite filter_cons, filter_nil.
    by destruct (decide (retained (start, first) = true)).
Qed.

(** The loop returns exactly when every back page gets a verdict, and
    then it returns the retained pages, in the order of the source. *)
Lemma filter_blanks_Ok doc out :
  filter_blanks doc = Ok out <-> backs_classified doc /\ out = kept doc.
Proof.
  unfold filter_blanks. split.
  - intros Hrun.
    destruct (for_range_filter_sound doc _ 0%nat [] out eq_refl Hrun)
      as [-> Hcl].
    split; [|done]. intros i page Hodd Hi. apply (Hcl i page); [lia|done..].
  - intros [Hcl ->].
    by rewrite (for_range_filter_complete doc _ 0%nat [] eq_refl Hcl).
Qed.

Lemma kept_elem_of doc i page :
  (i, page) ∈ kept doc <-> retained (i, page) = true /\ doc !! i = Some page.
Proof. by rewrite list_elem_of_filter, numbered_elem_of. Qed.

Lemma present_kept doc i :
  present i (kept doc)
  <-> exists page, doc !! i = Some page /\ retained (i, page) = true.
Proof.
  unfold present, source_indices. rewrite list_elem_of_fmap. split.
  - intros ([j page] & -> & [Hret Hi]%kept_elem_of). by exists page.
  - intros (page & Hi & Hret). exists (i, page). by rewrite kept_elem_of.
Qed.

(** The loop returns whenever the detector does. *)
Lemma filter_blanks_total doc :
  backs_classified doc -> exists out, filter_blanks doc = Ok out.
Proof. intros Hcl. exists (kept doc). by apply filter_blanks_Ok. Qed.

(** C1. In the output of the filter, a back page (odd 0-based index
    below the page count) is present exactly when the detector, called
    with the threshold 0.01, answers false for it. *)
Theorem back_page_present_iff_not_blank doc out (i : nat) :
  filter_blanks doc = Ok out ->
  (i < length doc)%nat ->
  (i mod 2 = 1)%nat ->
  present i out
  <-> exists page, doc !! i = Some page
                   /\ is_blank_page page default_threshold = Ok false.
Proof.
  intros [_ ->]%filter_blanks_Ok _ Hodd. rewrite present_kept.
  unfold retained, classified_non_blank. simpl. rewrite Hodd. simpl.
  split; intros (page & Hi & Hret); exists page; (split; [done|]).
  - by destruct (is_blank_page page default_threshold) as [[]|].
  - by rewrite Hret.
Qed.

(** C2. The pages of the output are a subsequence of the pages of the
    source: each is the copy of the source page whose number it carries,
    and these numbers are strictly increasing, so that no page is moved,
    repeated or added. *)
Theorem output_is_ordered_subsequence doc out :
  filter_blanks doc = Ok out ->
  pages out `sublist_of` doc
  /\ StronglySorted lt (source_indices out)
  /\ (forall (k i : nat) page, out !! k = Some (i, page) -> doc !! i = Some page).
Proof.
  intros [_ ->]%filter_blanks_Ok.
  assert (Hsub : kept doc `sublist_of` numbered doc) by apply sublist_filter.
  split; [|split].
  - unfold pages. rewrite <- (numbered_pages doc) at 2. by apply fmap_sublist.
  - unfold source_indices.
    apply (sublist_StronglySorted _ _ (seq 0 (length doc)));
      [|apply seq_StronglySorted].
    rewrite <- numbered_indices. by apply fmap_sublist.
  - intros k i page Hk. apply list_elem_of_lookup_2 in Hk.
    by apply kept_elem_of in Hk as [_ Hi].
Qed.

(** C3. In the output of the filter, every front page (even 0-based
    index below the page count) is present, whatever the detector would
    say of it. *)
Theorem front_page_always_present doc out (i : nat) :
  filter_blanks doc = Ok out ->
  (i < length doc)%nat ->
  (i mod 2 = 0)%nat ->
  present i out.
Proof.
  intros [_ ->]%filter_blanks_Ok Hlt Heven. rewrite present_kept.
  destruct (lookup_lt_is_Some_2 doc i Hlt) as [page Hi].
  exists page. split; [done|]. unfold retained. simpl. by rewrite Heven.
Qed.

(** C6. On the document without pages the filter returns, without
    raising, the document without pages. *)
Theorem filter_blanks_empty :
  filter_blanks [] = Ok [] /\ pages [] = [].
Proof. done. Qed.

(** C7. A document that has pages at even indices only, that is a
    document of at most one page, comes out of the filter with the same
    pages in the same order; the detector is not consulted, so that the
    filter cannot raise. *)
Theorem fronts_only_unchanged doc :
  (forall i, (i < length doc)%nat -> (i mod 2 = 0)%nat)
  \/ (length doc <= 1)%nat ->
  exists out, filter_blanks doc = Ok out
              /\ pages out = doc
              /\ source_indices out = seq 0 (length doc).
Proof.
  intros Hfronts.
  assert (Hlen : (length doc <= 1)%nat).
  { destruct Hfronts as [Heven|]; [|done].
    destruct (decide (length doc <= 1)%nat) as [|Hlong]; [done|].
    specialize (Heven 1%nat ltac:(lia)). done. }
  destruct doc as [|front [|back doc]]; simpl in Hlen; [..|lia].
  - by exists [].
  - by exists [(0%nat, front)].
Qed.

(** C10. The output of the filter has at least as many pages as the
    source has fronts, the half of its page count rounded up, and at
    most as many pages as the source. *)
Theorem output_page_count_bounds doc out :
  filter_blanks doc = Ok out ->
  ((length doc + 1) / 2 <= length (pages out) <= length doc)%nat.
Proof.
  intros [_ ->]%filter_blanks_Ok. unfold pages. rewrite length_fmap.
  split.
  - induction doc as [|page doc IH] using rev_ind; [by compute|].
    rewrite imap_app, filter_app, !length_app. simpl.
    rewrite Nat.add_0_r, filter_cons, filter_nil.
    assert (Hfront : (length doc mod 2 = 0)%nat ->
                     retained (length doc, page) = true).
    { intros Hpar. unfold retained. simpl. by rewrite Hpar. }
    pose proof (Nat.div_mod_eq (length doc + 1) 2).
    pose proof (Nat.div_mod_eq (length doc + 1 + 1) 2).
    pose proof (Nat.div_mod_eq (length doc) 2).
    pose proof (Nat.mod_upper_bound (length doc) 2 ltac:(done)).
    pose proof (Nat.mod_upper_bound (length doc + 1) 2 ltac:(done)).
    pose proof (Nat.mod_upper_bound (length doc + 1 + 1) 2 ltac:(done)).
    destruct (decide (retained (length doc, page) = true)) as [_|Hback];
      simpl length; [lia|].
    destruct (decide (length doc mod 2 = 0)%nat); [exfalso; auto|lia].
  - etrans; [apply length_filter|]. by rewrite length_imap.
Qed.

End Filter.

(** ** The naming step *)

Lemma split_not_nil (sep : char) (s : str) : split sep s <> [].
Proof.
  destruct s as [|c s]; simpl; [done|].
  destruct (c =? sep)%N; [done|]. by destruct (split sep s).
Qed.

Lemma re_sub_illegal_clean (s : str) :
  Forall (fun c => c ∉ illegal_chars) (re_sub_illegal s).
Proof.
  apply Forall_forall. intros c Hc%list_elem_of_In.
  apply List.filter_In in Hc as [_ Hlegal]. intros Hill%list_elem_of_In.
  apply negb_true_iff in Hlegal. unfold is_illegal in Hlegal.
  assert (existsb (N.eqb c) illegal_chars = true) as Hex; [|congruence].
  apply existsb_exists. exists c. split; [done|apply N.eqb_refl].
Qed.

(** The fuel of [replace] is enough: more fuel gives the same string. *)
Lemma replace_from_fuel (old new : str) : old <> [] ->
  forall fuel1 fuel2 s,
  (length s <= fuel1)%nat -> (length s <= fuel2)%nat ->
  replace_from fuel1 old new s = replace_from fuel2 old new s.
Proof.
  intros Hold. induction fuel1 as [|fuel1 IH]; intros fuel2 s Hle1 Hle2.
  - destruct s; [|simpl in Hle1; lia]. by destruct fuel2.
  - destruct s as [|c s]; [by destruct fuel2|].
    destruct fuel2 as [|fuel2]; simpl in Hle1, Hle2; [lia|]. simpl.
    destruct (startswith old (c :: s)).
    + f_equal. destruct old as [|o old]; [done|]. simpl.
      pose proof (length_drop s (length old)).
      apply IH; lia.
    + f_equal. apply IH; lia.
Qed.

(** While the characters left of an occurrence differ from the first
    character of [old], [replace] copies them. *)
Lemma replace_from_skip (old new rest : str) (first : char) (stem : str) :
  forall fuel,
  Forall (fun c => c <> first) stem ->
  replace_from (length stem + fuel) (first :: old) new (stem ++ rest)
  = stem ++ replace_from fuel (first :: old) new rest.
Proof.
  intros fuel. induction 1 as [|c stem Hc _ IH]; simpl; [done|].
  apply N.eqb_neq in Hc. rewrite N.eqb_sym, Hc. simpl. by rewrite IH.
Qed.

(** On a name whose only dot is the one of its extension, the fallback
    is the name without the extension. *)
Lemma replace_dot_pdf_extension (stem : str) :
  Forall (fun c => c <> 46%N) stem ->
  replace dot_pdf [] (stem ++ dot_pdf) = stem.
Proof.
  intros Hstem. unfold replace. rewrite length_app.
  change dot_pdf with (46%N :: py_str "pdf") at 2 3.
  rewrite (replace_from_skip _ _ _ _ _ _ Hstem). simpl.
  by rewrite app_nil_r.
Qed.

Section Naming.

Context `{Vision}.

(** A name obtained from the model holds none of the nine characters. *)
Lemma get_smart_name_clean (model : Model) (img : Image) (name : str) :
  get_smart_name model img = Some name ->
  Forall (fun c => c ∉ illegal_chars) name.
Proof.
  unfold get_smart_name.
  destruct (generate_content model img) as [response|]; simpl; [|done].
  destruct (response_text response) as [text|]; simpl; [|done].
  intros [= <-]. apply re_sub_illegal_clean.
Qed.

(** The base name is the model's name when there is one that is not
    empty, and the upload's name without [.pdf] otherwise. *)
Lemma new_base_name_cases (model : Model) (img : Image) (uploaded_name : str) :
  (exists name, get_smart_name model img = Some name /\ name <> []
                /\ new_base_name model img uploaded_name = name)
  \/ ((get_smart_name model img = None \/ get_smart_name model img = Some [])
      /\ new_base_name model img uploaded_name
         = replace dot_pdf [] uploaded_name).
Proof.
  unfold new_base_name.
  destruct (get_smart_name model img) as [[|c name]|]; simpl.
  - right. split; [by right|done].
  - left. by exists (c :: name).
  - right. split; [by left|done].
Qed.

Lemma new_base_name_from_model_clean (model : Model) (img : Image)
    (uploaded_name name : str) :
  get_smart_name model img = Some name -> name <> [] ->
  new_base_name model img uploaded_name = name
  /\ Forall (fun c => c ∉ illegal_chars) name.
Proof.
  intros Hname Hne. split; [|by eapply get_smart_name_clean].
  unfold new_base_name. rewrite Hname. by destruct name.
Qed.

Lemma new_base_name_fallback (model : Model) (img : Image) (uploaded_name : str) :
  get_smart_name model img = None ->
  new_base_name model img uploaded_name = replace dot_pdf [] uploaded_name.
Proof. intros Hfail. unfold new_base_name. by rewrite Hfail. Qed.

(** An upload without pages raises at [doc[0]], before the filter is
    reached. *)
Lemma process_upload_empty (model : Model) (uploaded_name : str) :
  process_upload model uploaded_name [] = Raise IndexError.
Proof. done. Qed.

End Naming.

(** C9. When the call to the model fails, the upload [scan.pdf.pdf] gets
    the base name [scan]: [replace] removes both occurrences of [.pdf],
    where stripping the extension leaves [scan.pdf]. *)
Theorem fallback_name_removes_every_dot_pdf :
  @get_smart_name _ Fixture.vision None [] = None
  /\ @new_base_name _ Fixture.vision None [] Fixture.doubled_extension
     = py_str "scan"
  /\ strip_pdf_extension Fixture.doubled_extension = py_str "scan.pdf".
Proof. by vm_compute. Qed.

(** ** The properties on concrete documents *)

Example four_pages_scenario :
  @filter_blanks Fixture.imaging Fixture.four_pages = Ok Fixture.four_pages_filtered.
Proof. by vm_compute. Qed.

Example unreadable_back_raises :
  @filter_blanks Fixture.imaging [Fixture.white 0; Fixture.unreadable 0]
  = Raise (LibraryError "cannot render page").
Proof. by vm_compute. Qed.

Example below_threshold_is_blank :
  @is_blank_page Fixture.imaging (Fixture.white 0) default_threshold = Ok true.
Proof. by vm_compute. Qed.

Example model_answer_sanitised :
  @new_base_name _ Fixture.vision (Some (py_str " 2025/01:02_A|B? ")) []
    Fixture.doubled_extension
  = py_str "20250102_AB".
Proof. by vm_compute. Qed.

Lemma back_page_present_iff_not_blank_witness :
  @filter_blanks Fixture.imaging Fixture.four_pages = Ok Fixture.four_pages_filtered
  /\ (present 3 Fixture.four_pages_filtered
      <-> exists page, Fixture.four_pages !! 3%nat = Some page
                       /\ is_blank_page page default_threshold = Ok false).
Proof.
  split; [by vm_compute|].
  apply (@back_page_present_iff_not_blank Fixture.imaging Fixture.four_pages).
  - by vm_compute.
  - simpl. lia.
  - reflexivity.
Defined.

Lemma output_is_ordered_subsequence_witness :
  pages Fixture.four_pages_filtered `sublist_of` Fixture.four_pages
  /\ StronglySorted lt (source_indices Fixture.four_pages_filtered)
  /\ (forall (k i : nat) page,
        Fixture.four_pages_filtered !! k = Some (i, page) ->
        Fixture.four_pages !! i = Some page).
Proof.
  apply (@output_is_ordered_subsequence Fixture.imaging Fixture.four_pages).
  by vm_compute.
Defined.

Lemma front_page_always_present_witness :
  present 2 Fixture.four_pages_filtered.
Proof.
  apply (@front_page_always_present Fixture.imaging Fixture.four_pages).
  - by vm_compute.
  - simpl. lia.
  - reflexivity.
Defined.

Lemma threshold_boundary_not_blank_witness :
  @is_blank_page Fixture.imaging Fixture.one_percent default_threshold = Ok false.
Proof.
  apply (@threshold_boundary_not_blank Fixture.imaging Fixture.one_percent
           default_threshold Fixture.one_percent_grid).
  - by vm_compute.
  - by vm_compute.
Defined.

Lemma fronts_only_unchanged_witness :
  exists out, @filter_blanks Fixture.imaging Fixture.one_page = Ok out
              /\ pages out = Fixture.one_page
              /\ source_indices out = seq 0 (length Fixture.one_page).
Proof.
  apply (@fronts_only_unchanged Fixture.imaging Fixture.one_page).
  right. simpl. lia.
Defined.

Lemma output_page_count_bounds_witness :
  ((length Fixture.four_pages + 1) / 2 <= length (pages Fixture.four_pages_filtered)
   <= length Fixture.four_pages)%nat.
Proof.
  apply (@output_page_count_bounds Fixture.imaging Fixture.four_pages).
  by vm_compute.
Defined.

(** * Further properties of the detector *)

(** ** Conversion of small counts to float64 *)

Lemma digits2_pos_lower (p : positive) :
  2 ^ (Z.pos (digits2_pos p) - 1) <= Z.pos p.
Proof.
  induction p as [p IH|p IH|]; simpl digits2_pos; [| |done];
    rewrite Pos2Z.inj_succ;
    replace (Z.succ (Z.pos (digits2_pos p)) - 1)
      with (Z.succ (Z.pos (digits2_pos p) - 1)) by lia;
    rewrite Z.pow_succ_r by lia; lia.
Qed.

Lemma digits2_pos_le_53 (p : positive) :
  Z.pos p < 2 ^ 53 -> Z.pos (digits2_pos p) <= 53.
Proof.
  intros Hp. pose proof (digits2_pos_lower p) as Hlow.
  destruct (decide (Z.pos (digits2_pos p) <= 53)) as [|Hbig]; [done|].
  assert (2 ^ 53 <= 2 ^ (Z.pos (digits2_pos p) - 1)); [|lia].
  apply Z.pow_le_mono_r; lia.
Qed.

Lemma digits2_pos_iter_xO (k p : positive) :
  Z.pos (digits2_pos (Pos.iter xO p k)) = Z.pos (digits2_pos p) + Z.pos k.
Proof.
  induction k as [|k IH] using Pos.peano_ind.
  - simpl. lia.
  - rewrite Pos.iter_succ. simpl digits2_pos. lia.
Qed.

(** A mantissa that already has the exponent of its format is not
    rounded. *)
Lemma binary_round_aux_canonical (m : positive) (e : Z) :
  Z.max (Z.pos (digits2_pos m) + e - 53) (3 - 1024 - 53) = e ->
  e <= 1024 - 53 ->
  binary_round_aux 53 1024 false (Z.pos m) e loc_Exact = S754_finite false m e.
Proof.
  intros Hcanon Hmax.
  unfold binary_round_aux, shr_fexp, fexp, SpecFloat.emin. simpl Zdigits2.
  rewrite Hcanon, Z.sub_diag. simpl. rewrite Hcanon, Z.sub_diag. simpl.
  by apply Z.leb_le in Hmax as ->.
Qed.

Lemma binary_normalize_small (p : positive) :
  Z.pos p < 2 ^ 53 ->
  exists m e,
    binary_normalize prec emax (Z.pos p) 0 false = S754_finite false m e.
Proof.
  intros Hp. pose proof (digits2_pos_le_53 p Hp) as Hd.
  unfold binary_normalize, binary_round, shl_align, fexp, SpecFloat.emin.
  change prec with 53. change emax with 1024.
  rewrite Z.add_0_r.
  replace (Z.max (Z.pos (digits2_pos p) - 53) (3 - 1024 - 53))
    with (Z.pos (digits2_pos p) - 53) by lia.
  rewrite Z.sub_0_r.
  destruct (Z.pos (digits2_pos p) - 53) as [|k|k] eqn:Hshift; [|lia|].
  - eexists _, _. apply binary_round_aux_canonical; lia.
  - eexists _, _. apply binary_round_aux_canonical; [|lia].
    rewrite digits2_pos_iter_xO. lia.
Qed.

(** A count between 1 and 2^53 becomes a positive finite float. *)
Lemma to_float64_finite (n : Z) :
  0 < n < 2 ^ 53 ->
  exists m e, Prim2SF (np.to_float64 n) = S754_finite false m e.
Proof.
  intros Hn. unfold np.to_float64.
  rewrite of_uint63_spec, Uint63.of_Z_spec, Z.mod_small.
  - destruct n as [|p|p]; [lia| |lia]. apply binary_normalize_small. lia.
  - change wB with (2 ^ 63). split; [lia|].
    apply Z.lt_trans with (2 ^ 53); [lia|done].
Qed.

(** [0 / n] is below every positive threshold. *)
Lemma true_divide_zero_ltb (n : Z) (threshold : float) :
  0 < n < 2 ^ 53 ->
  PrimFloat.ltb 0 threshold = true ->
  PrimFloat.ltb (np.true_divide 0 n) threshold = true.
Proof.
  intros Hn Hpos. destruct (to_float64_finite n Hn) as (m & e & Hfin).
  rewrite FloatAxioms.ltb_spec in Hpos |- *. unfold np.true_divide.
  rewrite div_spec, Hfin. exact Hpos.
Qed.

(** [0 / 0] is not a number, and is below nothing. *)
Lemma true_divide_zero_zero_ltb (threshold : float) :
  PrimFloat.ltb (np.true_divide 0 0) threshold = false.
Proof. by rewrite FloatAxioms.ltb_spec. Qed.

(** ** Counting is blind to the place and to the shade of a sample *)

Lemma filter_length_Permutation {A} (f : A -> bool) (l1 l2 : list A) :
  l1 ≡ₚ l2 -> length (List.filter f l1) = length (List.filter f l2).
Proof.
  induction 1 as [|x l1 l2 _ IH|x y l|l1 l2 l3 _ IH1 _ IH2]; simpl.
  - done.
  - destruct (f x); simpl; by rewrite IH.
  - by destruct (f x), (f y).
  - by rewrite IH1.
Qed.

Lemma filter_length_Forall2 {A} (f : A -> bool) (l1 l2 : list A) :
  Forall2 (fun a b => f a = f b) l1 l2 ->
  length (List.filter f l1) = length (List.filter f l2).
Proof.
  induction 1 as [|a b l1 l2 Hab _ IH]; simpl; [done|].
  rewrite <- Hab. destruct (f a); simpl; by rewrite IH.
Qed.

Section DetectorEdges.

Context `{Imaging}.

(** The verdict on a grid depends on the number of its samples and on the
    number of those below 250 only. *)
Lemma is_blank_page_counts (page1 page2 : Page) (threshold : float)
    (grid1 grid2 : np.ndarray Z) :
  render_luminance page1 2 = Ok grid1 ->
  render_luminance page2 2 = Ok grid2 ->
  length (samples grid1) = length (samples grid2) ->
  length (non_white_samples grid1) = length (non_white_samples grid2) ->
  is_blank_page page1 threshold = is_blank_page page2 threshold.
Proof.
  intros Hgrid1 Hgrid2 Hsize Hdark.
  rewrite !is_blank_page_luminance, Hgrid1, Hgrid2. simpl.
  rewrite !true_divide_non_white_ratio. unfold non_white_ratio.
  by rewrite Hsize, Hdark.
Qed.

(** X1. Two pages whose renderings hold the same samples, in whatever
    order and in whatever rows, get the same verdict: where the ink is on
    the page does not matter. *)
Theorem is_blank_page_sample_order_irrelevant (page1 page2 : Page)
    (threshold : float) (grid1 grid2 : np.ndarray Z) :
  render_luminance page1 2 = Ok grid1 ->
  render_luminance page2 2 = Ok grid2 ->
  samples grid1 ≡ₚ samples grid2 ->
  is_blank_page page1 threshold = is_blank_page page2 threshold.
Proof.
  intros Hgrid1 Hgrid2 Hperm.
  apply (is_blank_page_counts _ _ _ grid1 grid2); [done..| |].
  - by apply Permutation_length.
  - by apply filter_length_Permutation.
Qed.

(** X2. Two pages whose renderings agree, sample by sample, on being
    below 250 get the same verdict: every shade from 250 on counts as
    white and every shade below as ink. *)
Theorem is_blank_page_shade_irrelevant (page1 page2 : Page)
    (threshold : float) (grid1 grid2 : np.ndarray Z) :
  render_luminance page1 2 = Ok grid1 ->
  render_luminance page2 2 = Ok grid2 ->
  Forall2 (fun a b => (a <? 250) = (b <? 250)) (samples grid1) (samples grid2) ->
  is_blank_page page1 threshold = is_blank_page page2 threshold.
Proof.
  intros Hgrid1 Hgrid2 Hsame.
  apply (is_blank_page_counts _ _ _ grid1 grid2); [done..| |].
  - by eapply Forall2_length.
  - by apply (filter_length_Forall2 (fun v => v <? 250)).
Qed.

(** X3. A rendering without samples is never blank: the quotient 0/0 is
    not a number, which is below no threshold, and the division does not
    raise. *)
Theorem is_blank_page_no_samples (page : Page) (threshold : float)
    (grid : np.ndarray Z) :
  render_luminance page 2 = Ok grid ->
  samples grid = [] ->
  is_blank_page page threshold = Ok false.
Proof.
  intros Hgrid Hempty. rewrite is_blank_page_luminance, Hgrid. simpl.
  rewrite np_sum_lt, np_size_concat. unfold samples in Hempty.
  rewrite Hempty. simpl. by rewrite true_divide_zero_zero_ltb.
Qed.

(** X4. A rendering with at least one sample (and fewer than 2^53) and no
    sample below 250 is blank for every threshold above zero. *)
Theorem is_blank_page_all_white (page : Page) (threshold : float)
    (grid : np.ndarray Z) :
  render_luminance page 2 = Ok grid ->
  Forall (fun luminance => 250 <= luminance) (samples grid) ->
  0 < np.size grid < 2 ^ 53 ->
  PrimFloat.ltb 0 threshold = true ->
  is_blank_page page threshold = Ok true.
Proof.
  intros Hgrid Hwhite Hsize Hpos. rewrite is_blank_page_luminance, Hgrid. simpl.
  rewrite np_sum_lt. unfold samples in Hwhite.
  replace (List.filter (fun x => x <? 250) (concat grid)) with (@nil Z).
  - simpl. by rewrite true_divide_zero_ltb.
  - symmetry. induction Hwhite as [|v l Hv _ IH]; simpl; [done|].
    by apply Z.ltb_ge in Hv as ->.
Qed.

End DetectorEdges.

(** * Further properties of the filter *)

Lemma filter_Forall_id {A} (P : A -> Prop) `{!forall x, Decision (P x)}
    (l : list A) :
  Forall P l -> filter P l = l.
Proof.
  induction 1 as [|x l Hx _ IH]; [done|].
  by rewrite filter_cons_True, IH.
Qed.

Section FilterEdges.

Context `{Imaging}.

Implicit Types (doc : Document) (new_doc out : OutDocument) (page : Page).

Local Abbreviation numbered doc := (imap pair doc).
Local Abbreviation kept doc := (filter (fun ip => retained ip = true) (numbered doc)).
Local Abbreviation blank_backs doc :=
  (filter (fun ip => dropped_back ip = true) (numbered doc)).

Lemma odd_not_even (i : nat) : (i mod 2 =? 0)%nat = false <-> (i mod 2 = 1)%nat.
Proof.
  rewrite Nat.eqb_neq. pose proof (Nat.mod_upper_bound i 2 ltac:(done)). lia.
Qed.

(** The loop from page [start] on raises the exception of the first back
    page, among those left, on which the detector raises. *)
Lemma for_range_filter_raise doc count : forall start new_doc e,
  (start + count = length doc)%nat ->
  for_range (filter_step doc) start count new_doc = Raise e
  <-> exists i page,
        (start <= i)%nat /\ (i mod 2 = 1)%nat /\ doc !! i = Some page
        /\ is_blank_page page default_threshold = Raise e
        /\ (forall j earlier, (start <= j < i)%nat -> (j mod 2 = 1)%nat ->
              doc !! j = Some earlier ->
              exists blank, is_blank_page earlier default_threshold = Ok blank).
Proof.
  induction count as [|count IH]; intros start new_doc e Hlen; simpl.
  - split; [done|]. intros (i & page & Hle & _ & Hi & _).
    apply lookup_lt_Some in Hi. lia.
  - destruct (lookup_lt_is_Some_2 doc start) as [first Hfirst]; [lia|].
    rewrite (filter_step_lookup _ _ _ _ Hfirst).
    destruct (start mod 2 =? 0)%nat eqn:Hpar; simpl.
    + apply Nat.eqb_eq in Hpar. rewrite IH by lia. split.
      * intros (i & page & Hle & Hodd & Hi & Hraise & Hbefore).
        exists i, page. repeat split; [lia|done..|].
        intros j earlier Hj Hjodd Hjpage.
        apply (Hbefore j earlier); [|done..].
        destruct (decide (j = start)) as [->|]; lia.
      * intros (i & page & Hle & Hodd & Hi & Hraise & Hbefore).
        exists i, page. repeat split; [|done..|].
        -- destruct (decide (i = start)) as [->|]; lia.
        -- intros j earlier Hj. apply Hbefore. lia.
    + apply odd_not_even in Hpar.
      destruct (is_blank_page first default_threshold) as [blank|e'] eqn:Hverdict;
        simpl.
      * rewrite IH by lia. split.
        -- intros (i & page & Hle & Hodd & Hi & Hraise & Hbefore).
           exists i, page. repeat split; [lia|done..|].
           intros j earlier Hj Hjodd Hjpage.
           destruct (decide (j = start)) as [->|].
           ++ rewrite Hfirst in Hjpage. injection Hjpage as <-. by exists blank.
           ++ apply (Hbefore j earlier); [lia|done..].
        -- intros (i & page & Hle & Hodd & Hi & Hraise & Hbefore).
           exists i, page. repeat split; [|done..|].
           ++ destruct (decide (i = start)) as [->|]; [|lia].
              rewrite Hfirst in Hi. injection Hi as <-. congruence.
           ++ intros j earlier Hj. apply Hbefore. lia.
      * split.
        -- intros [= <-]. exists start, first. repeat split; [done..|].
           intros j earlier Hj. lia.
        -- intros (i & page & Hle & Hodd & Hi & Hraise & Hbefore).
           destruct (decide (i = start)) as [->|].
           ++ rewrite Hfirst in Hi. injection Hi as <-. congruence.
           ++ destruct (Hbefore start first) as [blank Hblank]; [lia|done..|].
              congruence.
Qed.

(** X5. The filter returns a document exactly when the detector returns
    a verdict on every back page: it never renders a front page, so that
    a front that cannot be rendered does not make it raise. *)
Theorem filter_returns_iff_backs_classified doc :
  (exists out, filter_blanks doc = Ok out) <-> backs_classified doc.
Proof.
  split.
  - by intros (out & [Hcl _]%filter_blanks_Ok).
  - apply filter_blanks_total.
Qed.

(** X6. When the filter raises, the exception is the one that the
    detector raises on the first back page on which it raises; and it
    raises whenever there is such a page. *)
Theorem filter_raises_first_failing_back doc (e : exn) :
  filter_blanks doc = Raise e
  <-> exists i page,
        (i mod 2 = 1)%nat /\ doc !! i = Some page
        /\ is_blank_page page default_threshold = Raise e
        /\ (forall j earlier, (j < i)%nat -> (j mod 2 = 1)%nat ->
              doc !! j = Some earlier ->
              exists blank, is_blank_page earlier default_threshold = Ok blank).
Proof.
  unfold filter_blanks. rewrite for_range_filter_raise by done. split.
  - intros (i & page & _ & Hodd & Hi & Hraise & Hbefore).
    exists i, page. repeat split; [done..|].
    intros j earlier Hj. apply Hbefore. lia.
  - intros (i & page & Hodd & Hi & Hraise & Hbefore).
    exists i, page. repeat split; [lia|done..|].
    intros j earlier Hj. apply Hbefore. lia.
Qed.

(** X7. A page of the source that is missing from the output is a back
    page on which the detector answered that it is blank: the filter
    drops nothing else. *)
Theorem dropped_page_is_blank_back doc out (i : nat) :
  filter_blanks doc = Ok out ->
  (i < length doc)%nat ->
  ~ present i out ->
  (i mod 2 = 1)%nat
  /\ exists page, doc !! i = Some page
                  /\ is_blank_page page default_threshold = Ok true.
Proof.
  intros [Hcl ->]%filter_blanks_Ok Hlt Habsent.
  destruct (lookup_lt_is_Some_2 doc i Hlt) as [page Hi].
  assert (Hdrop : retained (i, page) = false).
  { destruct (retained (i, page)) eqn:Hret; [|done].
    exfalso. apply Habsent. apply present_kept. by exists page. }
  unfold retained, classified_non_blank in Hdrop. simpl in Hdrop.
  apply orb_false_iff in Hdrop as [Hodd%odd_not_even Hverdict].
  split; [done|]. exists page. split; [done|].
  destruct (Hcl i page Hodd Hi) as [blank Hblank].
  rewrite Hblank in Hverdict |- *. by destruct blank.
Qed.

(** X8. When the detector finds no back page blank, the output has the
    pages of the source, all of them and in their order. *)
Theorem no_blank_back_unchanged doc :
  (forall i page, (i mod 2 = 1)%nat -> doc !! i = Some page ->
     is_blank_page page default_threshold = Ok false) ->
  exists out, filter_blanks doc = Ok out
              /\ pages out = doc
              /\ source_indices out = seq 0 (length doc).
Proof.
  intros Hfull. exists (numbered doc).
  split; [|split; [apply numbered_pages|apply numbered_indices]].
  apply filter_blanks_Ok. split.
  - intros i page Hodd Hi. exists false. by apply (Hfull i).
  - symmetry. apply filter_Forall_id. apply Forall_forall.
    intros [i page] Hi%numbered_elem_of.
    unfold retained, classified_non_blank. simpl.
    destruct (i mod 2 =? 0)%nat eqn:Hpar; [done|].
    apply odd_not_even in Hpar. by rewrite (Hfull i page Hpar Hi).
Qed.

(** X9. The output has as many pages as the source less the back pages
    on which the detector answered that they are blank. *)
Theorem output_page_count doc out :
  filter_blanks doc = Ok out ->
  (length (pages out) + length (blank_backs doc) = length doc)%nat.
Proof.
  intros [Hcl ->]%filter_blanks_Ok. unfold pages. rewrite length_fmap.
  induction doc as [|page doc IH] using rev_ind; [done|].
  rewrite imap_app, !filter_app, !length_app. simpl.
  rewrite Nat.add_0_r, !filter_cons, !filter_nil.
  assert (Hprefix : backs_classified doc).
  { intros i earlier Hodd Hi. apply (Hcl i earlier Hodd).
    by apply lookup_app_l_Some. }
  specialize (IH Hprefix).
  assert (Hone : retained (length doc, page) = negb (dropped_back (length doc, page))).
  { unfold retained, dropped_back, classified_non_blank. simpl.
    destruct (length doc mod 2 =? 0)%nat eqn:Hpar.
    - apply Nat.eqb_eq in Hpar. rewrite Hpar. done.
    - apply odd_not_even in Hpar. rewrite Hpar. simpl.
      destruct (Hcl (length doc) page Hpar) as [blank ->];
        [by apply list_lookup_middle|]. by destruct blank. }
  rewrite Hone.
  destruct (dropped_back (length doc, page)); simpl;
    repeat case_decide; try done; simpl; lia.
Qed.

End FilterEdges.

Section FilterConcat.

Context `{Imaging}.

Implicit Types (doc : Document) (out : OutDocument).

Lemma retained_shifted (offset : nat) (numbered : nat * Page) :
  (offset mod 2 = 0)%nat ->
  retained (shifted offset numbered) = retained numbered.
Proof.
  intros Heven. unfold retained, shifted. simpl.
  by rewrite <- Nat.Div0.add_mod_idemp_l, Heven.
Qed.

Lemma numbered_app doc1 doc2 :
  imap pair (doc1 ++ doc2)
  = imap pair doc1 ++ (shifted (length doc1) <$> imap pair doc2).
Proof.
  rewrite imap_app. f_equal. rewrite fmap_imap. by apply imap_ext.
Qed.

Lemma kept_app doc1 doc2 :
  (length doc1 mod 2 = 0)%nat ->
  filter (fun ip => retained ip = true) (imap pair (doc1 ++ doc2))
  = filter (fun ip => retained ip = true) (imap pair doc1)
    ++ (shifted (length doc1)
        <$> filter (fun ip => retained ip = true) (imap pair doc2)).
Proof.
  intros Heven. rewrite numbered_app, filter_app. f_equal.
  induction (imap pair doc2) as [|ip rest IH]; [done|].
  rewrite fmap_cons, !filter_cons, (retained_shifted _ _ Heven), IH.
  by destruct (decide (retained ip = true)).
Qed.

Lemma backs_classified_app doc1 doc2 :
  (length doc1 mod 2 = 0)%nat ->
  backs_classified (doc1 ++ doc2)
  <-> backs_classified doc1 /\ backs_classified doc2.
Proof.
  intros Heven. split.
  - intros Hcl. split; intros i page Hodd Hi.
    + apply (Hcl i page Hodd). by apply lookup_app_l_Some.
    + apply (Hcl (length doc1 + i)%nat page).
      * by rewrite <- Nat.Div0.add_mod_idemp_l, Heven.
      * by rewrite lookup_app_r, Nat.add_sub' by lia.
  - intros [Hcl1 Hcl2] i page Hodd [Hi|[Hle Hi]]%lookup_app_Some.
    + by apply (Hcl1 i).
    + apply (Hcl2 (i - length doc1)%nat page); [|done].
      replace i with (length doc1 + (i - length doc1))%nat in Hodd by lia.
      by rewrite <- Nat.Div0.add_mod_idemp_l, Heven in Hodd.
Qed.

(** X10. Filtering two documents put one after the other, the first
    with an even number of pages, gives the output of the first followed
    by the output of the second: whole sheets scanned in several runs
    can be joined before or after the filter. *)
Theorem filter_blanks_app doc1 doc2 out1 out2 :
  (length doc1 mod 2 = 0)%nat ->
  filter_blanks doc1 = Ok out1 ->
  filter_blanks doc2 = Ok out2 ->
  filter_blanks (doc1 ++ doc2) = Ok (out1 ++ (shifted (length doc1) <$> out2))
  /\ pages (out1 ++ (shifted (length doc1) <$> out2)) = pages out1 ++ pages out2.
Proof.
  intros Heven [Hcl1 ->]%filter_blanks_Ok [Hcl2 ->]%filter_blanks_Ok. split.
  - apply filter_blanks_Ok. split.
    + by apply backs_classified_app.
    + by rewrite kept_app.
  - unfold pages. rewrite fmap_app. f_equal.
    rewrite <- list_fmap_compose. by apply list_fmap_ext.
Qed.

End FilterConcat.

(** * Further properties of the naming step *)

Lemma split_head_no_sep (sep : char) (s : str) : sep ∉ hd [] (split sep s).
Proof.
  induction s as [|c s IH]; simpl; [by apply not_elem_of_nil|].
  destruct (c =? sep)%N eqn:Hc; simpl; [by apply not_elem_of_nil|].
  apply N.eqb_neq in Hc.
  destruct (split sep s) as [|word words]; simpl in *.
  - intros [->|[]%not_elem_of_nil]%elem_of_cons. done.
  - intros [->|Hin]%elem_of_cons; [done|by apply IH].
Qed.

Lemma split_no_sep (sep : char) (s : str) : sep ∉ s -> split sep s = [s].
Proof.
  induction s as [|c s IH]; simpl; [done|].
  intros [Hc Hs]%not_elem_of_cons.
  apply not_eq_sym, N.eqb_neq in Hc. rewrite Hc, IH; done.
Qed.

Lemma lstrip_id (s : str) :
  (forall c, head s = Some c -> isspace c = false) -> lstrip s = s.
Proof.
  destruct s as [|c s]; simpl; [done|]. intros Hhead.
  by rewrite (Hhead c eq_refl).
Qed.

Lemma strip_id (s : str) :
  (forall c, head s = Some c -> isspace c = false) ->
  (forall c, last s = Some c -> isspace c = false) ->
  strip s = s.
Proof.
  intros Hhead Hlast. unfold strip. rewrite (lstrip_id s Hhead).
  rewrite lstrip_id; [apply rev_involutive|].
  intros c Hc. apply Hlast. rewrite rev_alt in Hc.
  change (rev_append s []) with (reverse s) in Hc.
  by rewrite head_reverse in Hc.
Qed.

Lemma re_sub_illegal_id (s : str) :
  Forall (fun c => c ∉ illegal_chars) s -> re_sub_illegal s = s.
Proof.
  unfold re_sub_illegal.
  induction 1 as [|c s Hc _ IH]; simpl; [done|].
  assert (is_illegal c = false) as ->; [|by rewrite IH].
  apply not_true_is_false. intros Hill. apply Hc.
  apply existsb_exists in Hill as (c' & Hin & ->%N.eqb_eq).
  by apply list_elem_of_In.
Qed.

(** [replace] with an empty replacement keeps what holds of every
    character. *)
Lemma replace_from_delete_Forall (P : char -> Prop) (old : str) :
  forall fuel s, Forall P s -> Forall P (replace_from fuel old [] s).
Proof.
  induction fuel as [|fuel IH]; intros s Hs; simpl; [done|].
  destruct s as [|c s]; [done|].
  destruct (startswith old (c :: s)); simpl.
  - apply IH. by apply Forall_drop.
  - apply Forall_cons in Hs as [Hc Hs]. constructor; auto.
Qed.

(** Where [old] does not occur, [replace] changes nothing. *)
Lemma replace_from_no_occurrence (old new : str) :
  forall fuel s,
  (forall k, (k < length s)%nat -> occurs_at old s k = false) ->
  replace_from fuel old new s = s.
Proof.
  induction fuel as [|fuel IH]; intros s Hnone; simpl; [done|].
  destruct s as [|c s]; [done|].
  pose proof (Hnone 0%nat ltac:(simpl; lia)) as Hhere.
  unfold occurs_at in Hhere. simpl in Hhere. rewrite Hhere.
  f_equal. apply IH. intros k Hk.
  apply (Hnone (S k)). simpl. lia.
Qed.

Lemma startswith_app (prefix rest : str) : startswith prefix (prefix ++ rest) = true.
Proof.
  induction prefix as [|c prefix IH]; simpl; [done|].
  by rewrite N.eqb_refl, IH.
Qed.

Lemma endswith_app (suffix s : str) : endswith suffix (s ++ suffix) = true.
Proof. unfold endswith. rewrite rev_app_distr. apply startswith_app. Qed.

Section NamingEdges.

Context `{Vision}.

(** X11. A name obtained from the model holds no line feed: it is one
    line. *)
Theorem get_smart_name_single_line (model : Model) (img : Image) (name : str) :
  get_smart_name model img = Some name -> 10%N ∉ name.
Proof.
  unfold get_smart_name.
  destruct (generate_content model img) as [response|]; simpl; [|done].
  destruct (response_text response) as [text|]; simpl; [|done].
  intros [= <-] Hin. unfold re_sub_illegal in Hin.
  apply list_elem_of_In, List.filter_In in Hin as [Hin%list_elem_of_In _].
  by apply split_head_no_sep in Hin.
Qed.

(** X12. An answer of the model that is one non-empty line, neither
    begins nor ends with white space and holds none of the nine
    characters becomes the base name as it is. *)
Theorem clean_answer_is_base_name (model : Model) (img : Image)
    (response : Response) (text uploaded_name : str) :
  generate_content model img = Ok response ->
  response_text response = Ok text ->
  text <> [] ->
  10%N ∉ text ->
  (forall c, head text = Some c -> isspace c = false) ->
  (forall c, last text = Some c -> isspace c = false) ->
  Forall (fun c => c ∉ illegal_chars) text ->
  new_base_name model img uploaded_name = text.
Proof.
  intros Hcall Htext Hne Hline Hhead Hlast Hlegal.
  unfold new_base_name, get_smart_name. rewrite Hcall. simpl.
  rewrite Htext. simpl.
  rewrite (strip_id _ Hhead Hlast), (split_no_sep _ _ Hline). simpl.
  rewrite (re_sub_illegal_id _ Hlegal). by destruct text.
Qed.

(** X13. When the name of the upload holds none of the nine characters,
    neither does the base name, whether it comes from the model or from
    the name of the upload. *)
Theorem new_base_name_clean (model : Model) (img : Image) (uploaded_name : str) :
  Forall (fun c => c ∉ illegal_chars) uploaded_name ->
  Forall (fun c => c ∉ illegal_chars) (new_base_name model img uploaded_name).
Proof.
  intros Hupload.
  destruct (new_base_name_cases model img uploaded_name)
    as [(name & Hname & _ & ->)|[_ ->]].
  - by eapply get_smart_name_clean.
  - by apply replace_from_delete_Forall.
Qed.

(** X14. When the call to the model fails and the name of the upload
    holds no [.pdf] (an upper-case extension, say), the base name is the
    whole name of the upload, extension included. *)
Theorem fallback_keeps_name_without_dot_pdf (model : Model) (img : Image)
    (uploaded_name : str) :
  get_smart_name model img = None ->
  (forall k, (k < length uploaded_name)%nat ->
     occurs_at dot_pdf uploaded_name k = false) ->
  new_base_name model img uploaded_name = uploaded_name.
Proof.
  intros Hfail Hnone. rewrite (new_base_name_fallback _ _ _ Hfail).
  by apply replace_from_no_occurrence.
Qed.

(** X15. When the call to the model fails and the only dot of the name
    of the upload is the one of its extension [.pdf], the base name is
    the name with the extension stripped. *)
Theorem fallback_strips_single_extension (model : Model) (img : Image)
    (stem : str) :
  get_smart_name model img = None ->
  Forall (fun c => c <> 46%N) stem ->
  new_base_name model img (stem ++ dot_pdf) = stem
  /\ strip_pdf_extension (stem ++ dot_pdf) = stem.
Proof.
  intros Hfail Hstem. split.
  - rewrite (new_base_name_fallback _ _ _ Hfail).
    by apply replace_dot_pdf_extension.
  - unfold strip_pdf_extension. rewrite endswith_app, length_app.
    rewrite Nat.add_sub. by rewrite take_app_length.
Qed.

End NamingEdges.

(** * The batch *)

Section Batch.

Context {I : Imaging} {V : @Vision I} {P : @Pdf I} {Z : Zip}.

Implicit Types (model : Model) (uploaded_files : list UploadedFile)
  (processed_files : list (str * list Byte.byte)) (archive : ZipFile).

Lemma batch_loop_Ok model uploaded_files : forall processed_files result_files,
  batch_loop model uploaded_files processed_files = Ok result_files
  <-> exists entries,
        Forall2 (fun uploaded_file entry =>
                   process_file model uploaded_file = Ok entry)
                uploaded_files entries
        /\ result_files = processed_files ++ entries.
Proof.
  induction uploaded_files as [|uploaded_file rest IH];
    intros processed_files result_files; simpl.
  - split.
    + intros [= <-]. exists []. by rewrite app_nil_r.
    + intros (entries & ->%Forall2_nil_inv_l & ->). by rewrite app_nil_r.
  - rewrite bind_Ok. split.
    + intros (entry & Hentry & (entries & Hrest & ->)%IH).
      exists (entry :: entries). split; [by constructor|].
      by rewrite <- app_assoc.
    + intros (entries & (entry & later & Hentry & Hrest & ->)%Forall2_cons_inv_l & ->).
      exists entry. split; [done|]. apply IH. exists later.
      split; [done|]. by rewrite <- app_assoc.
Qed.

Lemma batch_loop_Raise model uploaded_files : forall processed_files (e : exn),
  batch_loop model uploaded_files processed_files = Raise e
  <-> exists before failing after,
        uploaded_files = before ++ failing :: after
        /\ Forall (fun uploaded_file =>
                     exists entry, process_file model uploaded_file = Ok entry)
                  before
        /\ process_file model failing = Raise e.
Proof.
  induction uploaded_files as [|uploaded_file rest IH];
    intros processed_files e; simpl.
  - split; [done|]. intros (before & failing & after & Heq & _).
    by destruct before.
  - destruct (process_file model uploaded_file) as [entry|e'] eqn:Hfirst; simpl.
    + rewrite IH. split.
      * intros (before & failing & after & -> & Hbefore & Hraise).
        exists (uploaded_file :: before), failing, after.
        split; [done|]. split; [|done]. constructor; [by exists entry|done].
      * intros (before & failing & after & Heq & Hbefore & Hraise).
        destruct before as [|first before]; simpl in Heq;
          injection Heq as <- ->; [congruence|].
        apply Forall_cons in Hbefore as [_ Hbefore].
        by exists before, failing, after.
    + split.
      * intros [= <-]. by exists [], uploaded_file, rest.
      * intros (before & failing & after & Heq & Hbefore & Hraise).
        destruct before as [|first before]; simpl in Heq;
          injection Heq as <- ->; [congruence|].
        apply Forall_cons in Hbefore as [[entry Hentry] _]. congruence.
Qed.

(** What a processed upload went through. *)
Lemma process_file_Ok model (uploaded_file : UploadedFile)
    (file_name : str) (data : list Byte.byte) :
  process_file model uploaded_file = Ok (file_name, data) ->
  exists doc new_doc base,
    fitz_open (upload_bytes uploaded_file) = Ok doc
    /\ doc <> []
    /\ filter_blanks doc = Ok new_doc
    /\ save new_doc = Ok data
    /\ file_name = base ++ dot_pdf.
Proof.
  unfold process_file, process_upload.
  intros (doc & Hopen & ([name new_doc] & Hnamed & (saved & Hsave & [= <- <-])%bind_Ok)%bind_Ok)%bind_Ok.
  apply bind_Ok in Hnamed as (first_page & Hfirst & Hnamed).
  apply bind_Ok in Hnamed as (pix & _ & Hnamed).
  apply bind_Ok in Hnamed as (png & _ & Hnamed).
  apply bind_Ok in Hnamed as (img & _ & Hnamed).
  apply bind_Ok in Hnamed as (filtered & Hfilter & [= <- <-]).
  exists doc, filtered, (new_base_name model img (upload_name uploaded_file)).
  repeat split; try done.
  intros ->. done.
Qed.

(** X16. The loop returns exactly when every upload is processed
    without an exception, and then [processed_files] holds one entry for
    each upload, in the order of the uploads. *)
Theorem batch_one_entry_per_upload model uploaded_files processed_files :
  batch_loop model uploaded_files [] = Ok processed_files
  <-> Forall2 (fun uploaded_file entry =>
                 process_file model uploaded_file = Ok entry)
              uploaded_files processed_files.
Proof.
  rewrite batch_loop_Ok. simpl. split.
  - by intros (entries & Hall & ->).
  - intros Hall. by exists processed_files.
Qed.

(** X17. The loop raises exactly when some upload does, and then with
    the exception of the first such upload; the uploads before it were
    processed, and their entries are lost with the batch. *)
Theorem batch_raises_first_failing_upload model uploaded_files (e : exn) :
  batch_loop model uploaded_files [] = Raise e
  <-> exists before failing after,
        uploaded_files = before ++ failing :: after
        /\ Forall (fun uploaded_file =>
                     exists entry, process_file model uploaded_file = Ok entry)
                  before
        /\ process_file model failing = Raise e.
Proof. apply batch_loop_Raise. Qed.

(** X18. The document written for a processed upload is never without
    pages: the upload had a first page, and the filter kept it. *)
Theorem saved_document_has_first_page model (uploaded_file : UploadedFile)
    (file_name : str) (data : list Byte.byte) :
  process_file model uploaded_file = Ok (file_name, data) ->
  exists doc new_doc first_page,
    fitz_open (upload_bytes uploaded_file) = Ok doc
    /\ filter_blanks doc = Ok new_doc
    /\ save new_doc = Ok data
    /\ head doc = Some first_page
    /\ head new_doc = Some (0%nat, first_page).
Proof.
  intros (doc & new_doc & base & Hopen & Hne & Hfilter & Hsave & _)%process_file_Ok.
  destruct doc as [|first_page doc]; [done|].
  exists (first_page :: doc), new_doc, first_page.
  repeat split; try done.
  apply filter_blanks_Ok in Hfilter as [_ ->].
  by rewrite imap_cons, filter_cons_True.
Qed.

(** X19. An upload that opens as a document without pages makes the
    whole run raise [IndexError] or an earlier exception: no archive is
    offered, whatever the other uploads are. *)
Theorem upload_without_pages_aborts_run (api_key : str) model (button : bool)
    uploaded_files (uploaded_file : UploadedFile) archive :
  uploaded_file ∈ uploaded_files ->
  fitz_open (upload_bytes uploaded_file) = Ok [] ->
  run_app api_key model button uploaded_files <> Ok (DownloadButton archive).
Proof.
  intros Hin Hopen Hrun. unfold run_app in Hrun.
  destruct uploaded_files as [|first rest] eqn:Hfiles; [done|].
  destruct api_key as [|c key]; [done|].
  destruct button; [|done].
  rewrite <- Hfiles in Hrun, Hin. clear Hfiles.
  apply bind_Ok in Hrun as (processed_files & Hloop & _).
  apply batch_loop_Ok in Hloop as (entries & Hloop & _).
  apply list_elem_of_lookup in Hin as [k Hk].
  destruct (Forall2_lookup_l _ _ _ _ _ Hloop Hk) as ([file_name data] & _ & Hentry).
  apply process_file_Ok in Hentry as (doc & _ & _ & Hopen' & Hne & _).
  congruence.
Qed.


End Batch.

(** ** The further properties on concrete inputs *)

Example duplex_processed :
  @process_file _ Fixture.vision BatchFixture.pdf None BatchFixture.duplex
  = Ok (py_str "duplex.pdf", [Byte.x25; Byte.x00; Byte.x00; Byte.x00]).
Proof. by vm_compute. Qed.

Example batch_of_two :
  @run_app _ Fixture.vision BatchFixture.pdf BatchFixture.zip (py_str "key")
    (Some BatchFixture.clean_line) true
    [BatchFixture.duplex; BatchFixture.single]
  = Ok (@DownloadButton BatchFixture.zip
          [(py_str "20250102_Taipei_check.pdf",
            [Byte.x25; Byte.x00; Byte.x00; Byte.x00]);
           (py_str "20250102_Taipei_check.pdf", [Byte.x25; Byte.xff])]).
Proof. by vm_compute. Qed.

Example batch_with_nul_in_answer :
  @run_app _ Fixture.vision BatchFixture.pdf BatchFixture.zip (py_str "key")
    (Some BatchFixture.nul_first) true [BatchFixture.duplex]
  = Raise IndexError.
Proof. by vm_compute. Qed.

Example batch_with_broken_upload :
  @run_app _ Fixture.vision BatchFixture.pdf BatchFixture.zip (py_str "key")
    None true
    [BatchFixture.duplex; BatchFixture.broken; BatchFixture.single]
  = Raise (LibraryError "cannot open broken document").
Proof. by vm_compute. Qed.

Lemma is_blank_page_sample_order_irrelevant_witness :
  @is_blank_page Fixture.imaging (Fixture.inked 0 2) default_threshold
  = @is_blank_page Fixture.imaging BatchFixture.ink_last default_threshold.
Proof.
  apply (@is_blank_page_sample_order_irrelevant Fixture.imaging _ _ _
           BatchFixture.ink_first_grid BatchFixture.ink_last_grid).
  - by vm_compute.
  - by vm_compute.
  - exact (Permutation_app_comm
             (map (fun b => Z.of_N (Byte.to_N b)) (repeat Byte.x00 2))
             (map (fun b => Z.of_N (Byte.to_N b)) (repeat Byte.xff 98))).
Defined.

Lemma is_blank_page_shade_irrelevant_witness :
  @is_blank_page Fixture.imaging (Fixture.inked 0 2) default_threshold
  = @is_blank_page Fixture.imaging BatchFixture.grey_ink default_threshold.
Proof.
  apply (@is_blank_page_shade_irrelevant Fixture.imaging _ _ _
           BatchFixture.ink_first_grid BatchFixture.grey_ink_grid).
  - by vm_compute.
  - by vm_compute.
  - vm_compute. repeat constructor.
Defined.

Lemma is_blank_page_no_samples_witness :
  @is_blank_page Fixture.imaging BatchFixture.no_samples default_threshold
  = Ok false.
Proof.
  apply (@is_blank_page_no_samples Fixture.imaging _ _ [[]]).
  - by vm_compute.
  - reflexivity.
Defined.

Lemma is_blank_page_all_white_witness :
  @is_blank_page Fixture.imaging (Fixture.white 0) default_threshold = Ok true.
Proof.
  apply (@is_blank_page_all_white Fixture.imaging _ _ BatchFixture.white_grid).
  - by vm_compute.
  - vm_compute. repeat constructor; discriminate.
  - by vm_compute.
  - by vm_compute.
Defined.

Lemma dropped_page_is_blank_back_witness :
  (1 mod 2 = 1)%nat
  /\ exists page, Fixture.four_pages !! 1%nat = Some page
                  /\ @is_blank_page Fixture.imaging page default_threshold
                     = Ok true.
Proof.
  apply (@dropped_page_is_blank_back Fixture.imaging Fixture.four_pages
           Fixture.four_pages_filtered).
  - by vm_compute.
  - simpl. lia.
  - unfold present. vm_compute. intros Hin.
    repeat (apply elem_of_cons in Hin as [Hin|Hin]; [discriminate|]).
    by apply not_elem_of_nil in Hin.
Defined.

Lemma no_blank_back_unchanged_witness :
  exists out, @filter_blanks Fixture.imaging BatchFixture.written_backs = Ok out
              /\ pages out = BatchFixture.written_backs
              /\ source_indices out = seq 0 (length BatchFixture.written_backs).
Proof.
  apply (@no_blank_back_unchanged Fixture.imaging BatchFixture.written_backs).
  intros [|[|i]] page Hodd Hpage.
  - vm_compute in Hodd. discriminate.
  - vm_compute in Hpage. injection Hpage as <-. by vm_compute.
  - vm_compute in Hpage. discriminate.
Defined.

Lemma output_page_count_witness :
  (length (pages Fixture.four_pages_filtered)
   + length (filter (fun ip => dropped_back ip = true)
                    (imap pair Fixture.four_pages))
   = length Fixture.four_pages)%nat.
Proof.
  apply (@output_page_count Fixture.imaging Fixture.four_pages).
  by vm_compute.
Defined.

Lemma filter_blanks_app_witness :
  @filter_blanks Fixture.imaging
    (BatchFixture.first_sheet ++ BatchFixture.second_sheet)
  = Ok (BatchFixture.first_sheet_filtered
        ++ (shifted (length BatchFixture.first_sheet)
            <$> BatchFixture.second_sheet_filtered))
  /\ pages (BatchFixture.first_sheet_filtered
            ++ (shifted (length BatchFixture.first_sheet)
                <$> BatchFixture.second_sheet_filtered))
     = pages BatchFixture.first_sheet_filtered
       ++ pages BatchFixture.second_sheet_filtered.
Proof.
  apply (@filter_blanks_app Fixture.imaging).
  - reflexivity.
  - by vm_compute.
  - by vm_compute.
Defined.

Lemma get_smart_name_single_line_witness :
  10%N ∉ py_str "2025_A".
Proof.
  apply (@get_smart_name_single_line _ Fixture.vision
           (Some BatchFixture.two_lines) []).
  by vm_compute.
Defined.

Lemma clean_answer_is_base_name_witness :
  @new_base_name _ Fixture.vision (Some BatchFixture.clean_line) []
    (py_str "duplex.pdf")
  = BatchFixture.clean_line.
Proof.
  apply (@clean_answer_is_base_name _ Fixture.vision
           (Some BatchFixture.clean_line) [] BatchFixture.clean_line).
  - reflexivity.
  - reflexivity.
  - discriminate.
  - vm_compute. intros Hin.
    repeat (apply elem_of_cons in Hin as [Hin|Hin]; [discriminate|]).
    by apply not_elem_of_nil in Hin.
  - intros c [= <-]. reflexivity.
  - intros c [= <-]. reflexivity.
  - vm_compute. repeat constructor; intros Hin;
      repeat (apply elem_of_cons in Hin as [Hin|Hin]; [discriminate|]);
      by apply not_elem_of_nil in Hin.
Defined.

Lemma new_base_name_clean_witness :
  Forall (fun c => c ∉ illegal_chars)
    (@new_base_name _ Fixture.vision None [] (py_str "duplex.pdf")).
Proof.
  apply (@new_base_name_clean _ Fixture.vision).
  vm_compute. repeat constructor; intros Hin;
    repeat (apply elem_of_cons in Hin as [Hin|Hin]; [discriminate|]);
    by apply not_elem_of_nil in Hin.
Defined.

Lemma fallback_keeps_name_without_dot_pdf_witness :
  @new_base_name _ Fixture.vision None [] (py_str "SINGLE.PDF")
  = py_str "SINGLE.PDF".
Proof.
  apply (@fallback_keeps_name_without_dot_pdf _ Fixture.vision).
  - reflexivity.
  - intros k Hk. vm_compute in Hk.
    do 10 (destruct k as [|k]; [reflexivity|]). lia.
Defined.

Lemma fallback_strips_single_extension_witness :
  @new_base_name _ Fixture.vision None [] (py_str "duplex" ++ dot_pdf)
  = py_str "duplex"
  /\ strip_pdf_extension (py_str "duplex" ++ dot_pdf) = py_str "duplex".
Proof.
  apply (@fallback_strips_single_extension _ Fixture.vision).
  - reflexivity.
  - vm_compute. repeat constructor; discriminate.
Defined.

Lemma saved_document_has_first_page_witness :
  exists doc new_doc first_page,
    @fitz_open _ BatchFixture.pdf (upload_bytes BatchFixture.duplex) = Ok doc
    /\ filter_blanks doc = Ok new_doc
    /\ @save _ BatchFixture.pdf new_doc
       = Ok [Byte.x25; Byte.x00; Byte.x00; Byte.x00]
    /\ head doc = Some first_page
    /\ head new_doc = Some (0%nat, first_page).
Proof.
  apply (@saved_document_has_first_page _ Fixture.vision BatchFixture.pdf
           None BatchFixture.duplex (py_str "duplex.pdf")).
  by vm_compute.
Defined.

Lemma upload_without_pages_aborts_run_witness :
  @run_app _ Fixture.vision BatchFixture.pdf BatchFixture.zip (py_str "key")
    None true
    [BatchFixture.duplex; BatchFixture.no_pages]
  <> Ok (@DownloadButton BatchFixture.zip []).
Proof.
  apply (@upload_without_pages_aborts_run _ Fixture.vision BatchFixture.pdf
           BatchFixture.zip _ _ _ _ BatchFixture.no_pages).
  - apply elem_of_cons. right. apply elem_of_cons. by left.
  - reflexivity.
Defined.
